(** * get_target_outputs: the evaluation-time output query of gn

    A shallow embedding of [RunGetTargetOutputs]
    (src/gn/function_get_target_outputs.cc) together with the part of the
    data model it reads, followed by the properties the specification
    states about it.

    The C++ function receives a mutable [Scope*], an out-parameter
    [Err*] and returns a [Value]; it leaves through seven [return]
    statements.  It is embedded in a small state monad with early return
    whose state holds the scope, the contents of [*err] and a log of the
    calls made to collaborators. *)

From Stdlib Require Import String Ascii List Bool Arith Lia.
Import ListNotations.
Local Open Scope string_scope.

(** ** Values of the build language and diagnostics *)

(** A syntax-tree node is only ever used as the origin of a value or of a
    diagnostic; it is identified by a number. *)
Definition ParseNode := nat.
Definition FunctionCallNode := ParseNode.

(** [Value()] is [Value_NONE]; [Value(origin, Value::LIST)] starts as
    [Value_LIST origin []]; [Value(origin, str)] is [Value_STRING]. *)
#[warnings="-register-all"]
Inductive Value : Type :=
| Value_NONE
| Value_BOOLEAN (origin : ParseNode) (b : bool)
| Value_INTEGER (origin : ParseNode) (n : nat)
| Value_STRING (origin : ParseNode) (s : string)
| Value_LIST (origin : ParseNode) (list_value : list Value).

Definition is_list (v : Value) : bool :=
  match v with Value_LIST _ _ => true | _ => false end.

(** An [Err] is built either from a node or from a value. *)
Inductive ErrOrigin : Type :=
| AtNode (node : ParseNode)
| AtValue (v : Value).

Record ErrInfo : Type := MkErr {
  err_origin : ErrOrigin;
  message : string;
  help_text : string
}.

(** [Err()] carries no error: it is [None]. *)
Definition Err := option ErrInfo.

Definition has_error (e : Err) : bool :=
  match e with Some _ => true | None => false end.

(** The line break written "\n" in the C++ string literals. *)
Definition nl : string := String (ascii_of_nat 10) EmptyString.

(** ** Labels *)

Module Label.

(** Modelled from the spec: gn/label.h is not among the sources.  Section
    3 makes a label a directory, a short name and a toolchain qualifier,
    equal to another label exactly when all three agree. *)
Record t : Type := mk {
  dir : string;
  name : string;
  toolchain : string
}.

(** [operator==]. *)
Definition eqb (a b : t) : bool :=
  String.eqb (dir a) (dir b) &&
  String.eqb (name a) (name b) &&
  String.eqb (toolchain a) (toolchain b).

(** [operator!=]. *)
Definition neqb (a b : t) : bool := negb (eqb a b).

End Label.

(** ** Targets and items *)

(** Modelled from the spec: gn/target.h is not among the sources.  The
    enumerators are the four the function tests for and the other kinds
    section 3 names. *)
Inductive OutputType : Type :=
| GROUP
| EXECUTABLE
| SHARED_LIBRARY
| STATIC_LIBRARY
| SOURCE_SET
| COPY_FILES
| ACTION
| ACTION_FOREACH
| GENERATED_FILE.

(** [operator==] on the enumeration. *)
Definition OutputType_eqb (a b : OutputType) : bool :=
  match a, b with
  | GROUP, GROUP | EXECUTABLE, EXECUTABLE | SHARED_LIBRARY, SHARED_LIBRARY
  | STATIC_LIBRARY, STATIC_LIBRARY | SOURCE_SET, SOURCE_SET
  | COPY_FILES, COPY_FILES | ACTION, ACTION
  | ACTION_FOREACH, ACTION_FOREACH | GENERATED_FILE, GENERATED_FILE => true
  | _, _ => false
  end.

(** An absolute path; [value] is [SourceFile::value()]. *)
Record SourceFile : Type := MkSourceFile { value : string }.

(** Modelled from the spec: gn/target.h and gn/action_values.h are not
    among the sources.  Section 3 gives a target an output kind, an
    explicit output-path list, a source-path list and an output
    template; section 4.3 expands the template in the context of an
    output directory, which [GetOutputsAsSourceFiles] can only reach
    through the target it is handed. *)
Record Target : Type := MkTarget {
  output_type : OutputType;
  outputs : list string;
  sources : list string;
  output_template : string;
  out_dir : string
}.

(** Modelled from the spec: gn/item.h is not among the sources.  Sections
    3 and 9 describe an item as a label plus one of the variants Target,
    Config, Toolchain, Pool, Other. *)
Inductive ItemVariant : Type :=
| IsTarget (t : Target)
| IsConfig
| IsToolchain
| IsPool
| IsOther.

Record Item : Type := MkItem {
  label : Label.t;
  variant : ItemVariant
}.

(** [Item::AsTarget()], the fallible extractor of section 9: null unless
    the item is a target. *)
Definition AsTarget (item : Item) : option Target :=
  match variant item with
  | IsTarget t => Some t
  | _ => None
  end.

(** [Scope::ItemVector]: the items declared so far, in declaration
    order. *)
Definition ItemVector := list Item.

(** ** The evaluation context *)

(** Modelled from the spec: gn/scope.h is not among the sources.  Section
    6 lists what the scope exposes: the current source directory, the
    repository root, the current toolchain label and, inside file-level
    evaluation only, the item registry. *)
Record Scope : Type := MkScope {
  source_dir : string;
  root_path : string;
  toolchain_label : Label.t;
  item_collector : option ItemVector
}.

(** ** Collaborators whose code is not among the sources *)

(** [Resolve] is [Label::Resolve]: it returns a label and what it stored
    through its [Err*] argument ([None] when it stored nothing).
    [is_null] and [GetUserVisibleName] are the methods of [Label] of the
    same names, [GetItemTypeName] the method of [Item].  [expand] is the
    substitution pattern engine of section 4.4, from a template, a source
    and an output directory to absolute paths, and [normalize] the
    conversion of a declared output path to an absolute one of section
    4.3. *)
Class Collaborators : Type := {
  Resolve : string -> string -> Label.t -> Value -> Label.t * Err;
  is_null : Label.t -> bool;
  GetUserVisibleName : Label.t -> bool -> string;
  GetItemTypeName : Item -> string;
  normalize : string -> SourceFile;
  expand : string -> string -> string -> list SourceFile
}.

(** ** The monad *)

(** The calls that carry out a step of section 4.5: resolving the label,
    fetching the registry, looking at one of its items, computing a
    target's outputs. *)
Inductive Event : Type :=
| CallResolve (input : Value)
| CallGetItemCollector
| VisitItem (item : Item)
| CallGetOutputs (t : Target).

Record Machine : Type := MkMachine {
  scope : Scope;
  err : Err;
  trace : list Event
}.

(** A statement either falls through with a result or executes
    [return v]. *)
Inductive Flow (A : Type) : Type :=
| Next (a : A)
| Return (v : Value).
Arguments Next {A} a.
Arguments Return {A} v.

Definition Exec (A : Type) : Type := Machine -> Flow A * Machine.

Definition ret {A} (a : A) : Exec A := fun m => (Next a, m).

Definition bind {A B} (c : Exec A) (k : A -> Exec B) : Exec B :=
  fun m =>
    match c m with
    | (Next a, m') => k a m'
    | (Return v, m') => (Return v, m')
    end.

(** [return v;] *)
Definition return_ {A} (v : Value) : Exec A := fun m => (Return v, m).

(** [*err = e;] *)
Definition set_err (e : ErrInfo) : Exec unit :=
  fun m => (Next tt, MkMachine (scope m) (Some e) (trace m)).

Definition emit (ev : Event) : Exec unit :=
  fun m => (Next tt, MkMachine (scope m) (err m) (trace m ++ [ev])).

Definition read {A} (f : Scope -> A) : Exec A :=
  fun m => (Next (f (scope m)), m).

Declare Scope exec_scope.
Delimit Scope exec_scope with exec.
Notation "x <- c ;; k" := (bind c (fun x => k))
  (at level 61, c at next level, right associativity) : exec_scope.
Notation "c ;; k" := (bind c (fun _ => k))
  (at level 61, right associativity) : exec_scope.
Local Open Scope exec_scope.

(** What the caller of a function observes: the returned value and the
    machine afterwards.  Falling off the end with [v] is [return v]. *)
Definition call (c : Exec Value) (m : Machine) : Value * Machine :=
  match c m with
  | (Next v, m') => (v, m')
  | (Return v, m') => (v, m')
  end.

(** ** The function *)

Section RunGetTargetOutputs.

Context {ext : Collaborators}.

(** [scope->GetSourceDir()], [scope->settings()->build_settings()->
    root_path_utf8()] and [ToolchainLabelForScope(scope)] read the
    scope. *)
Definition GetSourceDir : Exec string := read source_dir.
Definition root_path_utf8 : Exec string := read root_path.
Definition ToolchainLabelForScope : Exec Label.t := read toolchain_label.

(** [scope->GetItemCollector()]: null outside file-level evaluation. *)
Definition GetItemCollector : Exec (option ItemVector) :=
  emit CallGetItemCollector ;;
  read item_collector.

(** [Label::Resolve(current_dir, root, toolchain, input, err)]. *)
Definition Label_Resolve (current_dir root : string) (current_toolchain : Label.t)
    (input : Value) : Exec Label.t :=
  emit (CallResolve input) ;;
  let (l, e) := Resolve current_dir root current_toolchain input in
  match e with
  | Some info => set_err info ;; ret l
  | None => ret l
  end.

(** Modelled from the spec: [ActionValues::GetOutputsAsSourceFiles] is
    declared in gn/action_values.h, which is not among the sources.
    Section 4.3: Action, Copy and GeneratedFile give the explicit
    output list, each path made absolute, in declared order;
    ActionForEach gives, for each source in declared order, the
    expansion of the output template, all concatenated.  The remaining
    kinds carry no outputs. *)
Definition GetOutputsAsSourceFiles (target : Target) : Exec (list SourceFile) :=
  emit (CallGetOutputs target) ;;
  match output_type target with
  | ACTION | COPY_FILES | GENERATED_FILE =>
      ret (map normalize (outputs target))
  | ACTION_FOREACH =>
      ret (flat_map
             (fun source => expand (output_template target) source (out_dir target))
             (sources target))
  | _ => ret []
  end.

(** Lines 92-105: the scan of the collector.  The result is the value
    of [target] after the loop; the loop may also leave the function. *)
Fixpoint scan_collector (function : FunctionCallNode) (l : Label.t)
    (collector : ItemVector) : Exec (option Target) :=
  match collector with
  | [] => ret None
  | item :: rest =>
      emit (VisitItem item) ;;
      if Label.neqb (label item) l then
        scan_collector function l rest
      else
        match AsTarget item with
        | None =>
            set_err (MkErr (AtNode function)
                       "Label does not refer to a target."
                       (GetUserVisibleName l false ++ nl ++ "refers to a " ++
                        GetItemTypeName item)) ;;
            return_ Value_NONE
        | Some as_target => ret (Some as_target)
        end
  end.

(** Lines 133-136: [push_back] of one string value per file. *)
Definition push_back (function : FunctionCallNode) (acc : list Value)
    (file : SourceFile) : list Value :=
  (acc ++ [Value_STRING function (value file)])%list.

Definition files_to_values (function : FunctionCallNode)
    (files : list SourceFile) : Value :=
  Value_LIST function (fold_left (push_back function) files []).

Definition RunGetTargetOutputs (function : FunctionCallNode)
    (args : list Value) : Exec Value :=
  if negb (List.length args =? 1)%nat then
    set_err (MkErr (AtNode function) "Expected one argument." "") ;;
    return_ Value_NONE
  else
    let arg0 := nth 0 args Value_NONE in
    (* Resolve the requested label. *)
    current_dir <- GetSourceDir ;;
    root <- root_path_utf8 ;;
    current_toolchain <- ToolchainLabelForScope ;;
    l <- Label_Resolve current_dir root current_toolchain arg0 ;;
    if is_null l then return_ Value_NONE
    else
      (* Find the referenced target. *)
      collector <- GetItemCollector ;;
      match collector with
      | None =>
          set_err (MkErr (AtNode function) "No targets defined in this context." "") ;;
          return_ Value_NONE
      | Some items =>
          target <- scan_collector function l items ;;
          match target with
          | None =>
              set_err (MkErr (AtNode function)
                         "Target not found in this context."
                         (GetUserVisibleName l false ++ nl ++
                          "was not found. get_target_outputs() can only be used for " ++
                          "targets" ++ nl ++
                          "previously defined in the current file.")) ;;
              return_ Value_NONE
          | Some target =>
              (* Compute the output list. *)
              if OutputType_eqb (output_type target) ACTION ||
                 OutputType_eqb (output_type target) COPY_FILES ||
                 OutputType_eqb (output_type target) ACTION_FOREACH ||
                 OutputType_eqb (output_type target) GENERATED_FILE then
                files <- GetOutputsAsSourceFiles target ;;
                (* Convert to Values. *)
                ret (files_to_values function files)
              else
                (* Other types of targets are not supported. *)
                set_err (MkErr (AtValue arg0)
                           "Target is not an action, action_foreach, generated_file, or copy."
                           "Only these target types are supported by get_target_outputs.") ;;
                return_ Value_NONE
          end
      end.

(** The call as its caller sees it. *)
Definition get_target_outputs (function : FunctionCallNode) (args : list Value)
    (m : Machine) : Value * Machine :=
  call (RunGetTargetOutputs function args) m.

End RunGetTargetOutputs.

(** ** The specification's vocabulary *)

Local Open Scope list_scope.

(** Section 4.2, [find]: the first item whose label equals the
    argument. *)
Definition Registry_find (l : Label.t) (registry : ItemVector) : option Item :=
  find (fun item => Label.eqb (label item) l) registry.

(** Section 4.2, [append]. *)
Definition Registry_append (registry : ItemVector) (item : Item) : ItemVector :=
  registry ++ [item].

(** The items a linear scan for [l] looks at: everything up to and
    including the first match. *)
Fixpoint visited (l : Label.t) (registry : ItemVector) : ItemVector :=
  match registry with
  | [] => []
  | item :: rest =>
      item :: (if Label.eqb (label item) l then [] else visited l rest)
  end.

(** The four kinds section 4.3 computes outputs for. *)
Definition supported (k : OutputType) : bool :=
  match k with
  | ACTION | COPY_FILES | ACTION_FOREACH | GENERATED_FILE => true
  | _ => false
  end.

(** [*err] after a callee that stored [e] through it, or nothing. *)
Definition stored (e : Err) (before : Err) : Err :=
  match e with
  | Some info => Some info
  | None => before
  end.

(** The machine after further collaborator calls, and after a store
    through [err]. *)
Definition logged (m : Machine) (events : list Event) : Machine :=
  MkMachine (scope m) (err m) (trace m ++ events).

Definition failed (m : Machine) (info : ErrInfo) : Machine :=
  MkMachine (scope m) (Some info) (trace m).

(** The machine once the label is resolved, the collector fetched and
    the scan over. *)
Definition after_scan (m : Machine) (arg : Value) (e : Err) (l : Label.t)
    (registry : ItemVector) : Machine :=
  MkMachine (scope m) (stored e (err m))
    (trace m ++ CallResolve arg :: CallGetItemCollector ::
       map VisitItem (visited l registry)).

(** What a caller can tell a call by: the value and the error. *)
Definition observed (r : Value * Machine) : Value * Err := (fst r, err (snd r)).

(** A computation that hands the scope on as it received it. *)
Definition keeps_scope {A : Type} (c : Exec A) : Prop :=
  forall m, scope (snd (c m)) = scope m.

(** The closing words of the not-found diagnostic. *)
Definition visibility_rule : string :=
  ("get_target_outputs() can only be used for targets" ++ nl ++
   "previously defined in the current file.")%string.

Section Vocabulary.

Context {ext : Collaborators}.

Variable function : FunctionCallNode.

(** Section 7, the taxonomy, as the diagnostics the function builds.
    [LabelSyntaxError] is whatever [Label::Resolve] stores. *)
Definition ArgumentCountError : ErrInfo :=
  MkErr (AtNode function) "Expected one argument." "".

Definition ContextError : ErrInfo :=
  MkErr (AtNode function) "No targets defined in this context." "".

Definition TypeMismatchError (l : Label.t) (item : Item) : ErrInfo :=
  MkErr (AtNode function) "Label does not refer to a target."
    (GetUserVisibleName l false ++ nl ++ "refers to a " ++ GetItemTypeName item)%string.

Definition NotFoundError (l : Label.t) : ErrInfo :=
  MkErr (AtNode function) "Target not found in this context."
    (GetUserVisibleName l false ++ nl ++
     "was not found. get_target_outputs() can only be used for targets" ++ nl ++
     "previously defined in the current file.")%string.

Definition UnsupportedKindError (arg : Value) : ErrInfo :=
  MkErr (AtValue arg)
    "Target is not an action, action_foreach, generated_file, or copy."
    "Only these target types are supported by get_target_outputs.".

(** A file as a string value originating at the call. *)
Definition to_value (file : SourceFile) : Value :=
  Value_STRING function (value file).

(** The canonical string of a declared output path. *)
Definition canonical (path : string) : Value :=
  Value_STRING function (value (normalize path)).

(** The strings one source of an ActionForEach target contributes. *)
Definition expansion (t : Target) (source : string) : list Value :=
  map to_value (expand (output_template t) source (out_dir t)).

(** Section 4.3, [compute_outputs], for a target of a supported kind. *)
Definition output_files (t : Target) : list SourceFile :=
  match output_type t with
  | ACTION | COPY_FILES | GENERATED_FILE => map normalize (outputs t)
  | ACTION_FOREACH =>
      flat_map (fun source => expand (output_template t) source (out_dir t))
               (sources t)
  | _ => []
  end.

(** Section 4.5 in the specification's words, steps 1 to 7 with [find]
    of section 4.2 for the lookup: the value returned and the error left
    behind, from the arguments, the scope and the error on entry. *)
Definition outcome (args : list Value) (s : Scope) (before : Err) : Value * Err :=
  match args with
  | [arg] =>
      let (l, e) :=
        Resolve (source_dir s) (root_path s) (toolchain_label s) arg in
      if is_null l then (Value_NONE, stored e before)
      else
        match item_collector s with
        | None => (Value_NONE, Some ContextError)
        | Some registry =>
            match Registry_find l registry with
            | None => (Value_NONE, Some (NotFoundError l))
            | Some item =>
                match AsTarget item with
                | None => (Value_NONE, Some (TypeMismatchError l item))
                | Some t =>
                    if supported (output_type t) then
                      (Value_LIST function (map to_value (output_files t)),
                       stored e before)
                    else (Value_NONE, Some (UnsupportedKindError arg))
                end
            end
        end
  | _ => (Value_NONE, Some ArgumentCountError)
  end.

End Vocabulary.

(** ** A concrete set of collaborators *)

Module Demo.

Definition colon : ascii := ":"%char.
Definition slash : ascii := "/"%char.
Definition dot : ascii := "."%char.

Fixpoint occurs (c : ascii) (s : string) : bool :=
  match s with
  | EmptyString => false
  | String x rest => Ascii.eqb x c || occurs c rest
  end.

(** The part of [s] before the last [c]; all of [s] without a [c]. *)
Fixpoint before_last (c : ascii) (s : string) : string :=
  match s with
  | EmptyString => EmptyString
  | String x rest =>
      if occurs c rest then String x (before_last c rest)
      else if Ascii.eqb x c then EmptyString
      else s
  end.

(** The part of [s] after the last [c]; all of [s] without a [c]. *)
Fixpoint after_last (c : ascii) (s : string) : string :=
  match s with
  | EmptyString => EmptyString
  | String x rest =>
      if occurs c rest then after_last c rest
      else if Ascii.eqb x c then rest
      else s
  end.

Definition null_label : Label.t := Label.mk "" "" "".

Definition user_visible (l : Label.t) (include_toolchain : bool) : string :=
  (Label.dir l ++ ":" ++ Label.name l ++
   (if include_toolchain then "(" ++ Label.toolchain l ++ ")" else ""))%string.

(** Modelled from the spec: gn/label.h is not among the sources.
    Section 4.1 asks for a pure resolver that fails with a syntax
    error on a malformed expression and defaults the toolchain to the
    current one.  This one reads "dir:name", takes the current
    directory when "dir" is empty, and rejects a value that is not a
    string, has no colon or has an empty name. *)
Definition resolve (current_dir root : string) (current_toolchain : Label.t)
    (input : Value) : Label.t * Err :=
  match input with
  | Value_STRING _ s =>
      if occurs colon s && negb (after_last colon s =? "")%string then
        let d := before_last colon s in
        (Label.mk (if (d =? "")%string then current_dir else d)
                  (after_last colon s)
                  (user_visible current_toolchain false),
         None)
      else
        (null_label, Some (MkErr (AtValue input) "Invalid label." s))
  | _ => (null_label, Some (MkErr (AtValue input) "Label is not a string." ""))
  end.

Definition item_type_name (item : Item) : string :=
  match variant item with
  | IsTarget _ => "target"
  | IsConfig => "config"
  | IsToolchain => "toolchain"
  | IsPool => "pool"
  | IsOther => "item"
  end.

(** Modelled from the spec: gn/substitution_writer.h is not among the
    sources.  Section 4.4 substitutes components of the source path
    into the template; the placeholders here are the ones the spec's
    own example uses, written in braces, and a source expands to one
    path. *)
Definition placeholder (source out : string) (key : string) : string :=
  if (key =? "out_dir")%string then out
  else if (key =? "stem")%string then before_last dot (after_last slash source)
  else if (key =? "ext")%string then after_last dot (after_last slash source)
  else if (key =? "dir")%string then before_last slash source
  else ("{" ++ key ++ "}")%string.

(** [hole] is the placeholder name read so far while inside braces. *)
Fixpoint substitute (lookup : string -> string) (template : string)
    (hole : option string) : string :=
  match template with
  | EmptyString =>
      match hole with
      | None => EmptyString
      | Some key => ("{" ++ key)%string
      end
  | String c rest =>
      match hole with
      | None =>
          if Ascii.eqb c "{"%char then substitute lookup rest (Some EmptyString)
          else String c (substitute lookup rest None)
      | Some key =>
          if Ascii.eqb c "}"%char then (lookup key ++ substitute lookup rest None)%string
          else substitute lookup rest (Some (key ++ String c EmptyString)%string)
      end
  end.

Definition expand_template (template source out : string) : list SourceFile :=
  [MkSourceFile (substitute (placeholder source out) template None)].

#[export] Instance collaborators : Collaborators := {
  Resolve := resolve;
  is_null := fun l => (Label.dir l =? "")%string;
  GetUserVisibleName := user_visible;
  GetItemTypeName := item_type_name;
  normalize := MkSourceFile;
  expand := expand_template
}.

(** A file in directory "//app" evaluated under the default
    toolchain. *)
Definition default_toolchain : Label.t := Label.mk "//build/toolchain" "default" "".

Definition file_scope (registry : option ItemVector) : Scope :=
  MkScope "//app" "/repo" default_toolchain registry.

Definition here (n : string) : Label.t :=
  Label.mk "//app" n "//build/toolchain:default".

Definition start (registry : option ItemVector) : Machine :=
  MkMachine (file_scope registry) None [].

Definition gen : Target :=
  MkTarget ACTION ["/out/x.txt"; "/out/x.txt"]%string ["in.txt"]%string "" "/out".
Definition objs : Target :=
  MkTarget ACTION_FOREACH [] ["a.c"; "b.c"]%string "{out_dir}/{stem}.o" "/out".
Definition lib : Target :=
  MkTarget SOURCE_SET [] ["a.c"]%string "" "/out".

Definition gen_item : Item := MkItem (here "gen") (IsTarget gen).
Definition cfg_item : Item := MkItem (here "cfg") IsConfig.
Definition objs_item : Item := MkItem (here "objs") (IsTarget objs).
Definition lib_item : Item := MkItem (here "lib") (IsTarget lib).
Definition late_item : Item := MkItem (here "cfg") (IsTarget gen).

(** The registry of the file, in declaration order; the last item
    reuses the label of the config. *)
Definition registry : ItemVector :=
  [gen_item; cfg_item; objs_item; lib_item; late_item].

Definition call_site : FunctionCallNode := 7.
Definition arg (s : string) : Value := Value_STRING 8 s.

Definition run : list Value -> Machine -> Value * Machine :=
  get_target_outputs call_site.

Definition at_file : Machine := start (Some registry).

End Demo.

(** ** Varying the registry *)

(** The scope with another registry in place of its own; the directory,
    the root and the toolchain, which are all the resolver is given,
    stay. *)
Definition with_registry (s : Scope) (registry : option ItemVector) : Scope :=
  MkScope (source_dir s) (root_path s) (toolchain_label s) registry.

(** The machine of a file whose registry is [registry]. *)
Definition in_registry (m : Machine) (registry : ItemVector) : Machine :=
  MkMachine (with_registry (scope m) (Some registry)) (err m) (trace m).

(** The machine entered with [pending] in [*err]. *)
Definition entered_with (m : Machine) (pending : Err) : Machine :=
  MkMachine (scope m) pending (trace m).

(** [item->label() == l]. *)
Definition carries (l : Label.t) (item : Item) : bool :=
  Label.eqb (label item) l.

(** * Properties *)

(** ** Labels and the registry *)

Lemma Label_eqb_eq (a b : Label.t) : Label.eqb a b = true <-> a = b.
Proof.
  destruct a as [d1 n1 t1], b as [d2 n2 t2]; unfold Label.eqb; cbn.
  rewrite !andb_true_iff, !String.eqb_eq.
  split.
  - intros [[-> ->] ->]; reflexivity.
  - intros E; injection E as -> -> ->; auto.
Qed.

Lemma Label_eqb_refl (a : Label.t) : Label.eqb a a = true.
Proof. apply Label_eqb_eq; reflexivity. Qed.

Section Scan.

Variable l : Label.t.

Lemma find_none_visited (registry : ItemVector) :
  Registry_find l registry = None -> visited l registry = registry.
Proof.
  unfold Registry_find.
  induction registry as [|item rest IH]; cbn; [reflexivity|].
  destruct (Label.eqb (label item) l); [discriminate|].
  intros H; rewrite (IH H); reflexivity.
Qed.

Lemma find_none_iff (registry : ItemVector) :
  Registry_find l registry = None <->
  (forall item, In item registry -> label item <> l).
Proof.
  unfold Registry_find; split.
  - intros H item Hin E.
    apply (find_none _ _ H) in Hin.
    rewrite <- E, Label_eqb_refl in Hin; discriminate.
  - induction registry as [|item rest IH]; cbn; [reflexivity|].
    intros H.
    destruct (Label.eqb (label item) l) eqn:E.
    + apply Label_eqb_eq in E; exfalso; apply (H item); auto.
    + apply IH; intros it Hin; apply H; auto.
Qed.

(** A first match splits the registry around itself. *)
Lemma find_first (pre post : ItemVector) (item : Item) :
  (forall it, In it pre -> label it <> l) ->
  label item = l ->
  Registry_find l (pre ++ item :: post) = Some item /\
  visited l (pre ++ item :: post) = pre ++ [item].
Proof.
  unfold Registry_find.
  intros Hpre Hitem.
  induction pre as [|p pre IH]; cbn.
  - rewrite Hitem, Label_eqb_refl; auto.
  - destruct (Label.eqb (label p) l) eqn:E.
    + apply Label_eqb_eq in E; exfalso; apply (Hpre p); cbn; auto.
    + destruct IH as [IH1 IH2]; [intros it Hin; apply Hpre; cbn; auto|].
      rewrite IH1, IH2; auto.
Qed.

End Scan.

(** ** Small facts about the machine and about lists *)

Lemma logged_nil (m : Machine) : logged m [] = m.
Proof. destruct m; unfold logged; cbn; rewrite app_nil_r; reflexivity. Qed.

Lemma supported_spec (k : OutputType) :
  OutputType_eqb k ACTION || OutputType_eqb k COPY_FILES ||
  OutputType_eqb k ACTION_FOREACH || OutputType_eqb k GENERATED_FILE = supported k.
Proof. destruct k; reflexivity. Qed.

Lemma stored_idem (e before : Err) : stored e (stored e before) = stored e before.
Proof. destruct e; reflexivity. Qed.

Lemma append_assoc (a b c : string) :
  ((a ++ b) ++ c)%string = (a ++ (b ++ c))%string.
Proof. induction a as [|x a IH]; cbn; [reflexivity | rewrite IH; reflexivity]. Qed.

Lemma map_flat_map {A B C : Type} (f : B -> C) (g : A -> list B) (xs : list A) :
  map f (flat_map g xs) = flat_map (fun x => map f (g x)) xs.
Proof.
  induction xs as [|x xs IH]; cbn; [reflexivity|].
  rewrite map_app, IH; reflexivity.
Qed.

Lemma length_flat_map {A B : Type} (g : A -> list B) (xs : list A) :
  List.length (flat_map g xs) = list_sum (map (fun x => List.length (g x)) xs).
Proof.
  induction xs as [|x xs IH]; cbn; [reflexivity|].
  rewrite length_app, IH; reflexivity.
Qed.

Lemma fold_push_back (function : FunctionCallNode) (files : list SourceFile)
    (acc : list Value) :
  fold_left (push_back function) files acc = acc ++ map (to_value function) files.
Proof.
  revert acc; induction files as [|file files IH]; intros acc; cbn.
  - rewrite app_nil_r; reflexivity.
  - rewrite IH; unfold push_back; rewrite <- app_assoc; reflexivity.
Qed.

Lemma files_to_values_map (function : FunctionCallNode) (files : list SourceFile) :
  files_to_values function files = Value_LIST function (map (to_value function) files).
Proof. unfold files_to_values; rewrite fold_push_back; reflexivity. Qed.

(** ** The run of the function, step by step *)

Section Behaviour.

Context {ext : Collaborators}.

Variable function : FunctionCallNode.

(** The loop of lines 92-105 against the specification's [find]. *)
Lemma scan_collector_find (l : Label.t) (registry : ItemVector) (m : Machine) :
  scan_collector function l registry m =
  match Registry_find l registry with
  | None => (Next None, logged m (map VisitItem registry))
  | Some item =>
      match AsTarget item with
      | Some t => (Next (Some t), logged m (map VisitItem (visited l registry)))
      | None =>
          (Return Value_NONE,
           failed (logged m (map VisitItem (visited l registry)))
             (TypeMismatchError function l item))
      end
  end.
Proof.
  unfold Registry_find.
  revert m; induction registry as [|item rest IH]; intros m.
  - cbn; rewrite logged_nil; reflexivity.
  - cbn [scan_collector find visited map].
    unfold bind at 1, emit at 1.
    unfold Label.neqb.
    destruct (Label.eqb (label item) l) eqn:E; cbn [negb].
    + destruct (AsTarget item) as [t|]; reflexivity.
    + rewrite IH.
      destruct (find _ rest) as [found|].
      * destruct (AsTarget found); unfold logged, failed; cbn;
          rewrite <- app_assoc; reflexivity.
      * unfold logged; cbn; rewrite <- app_assoc; reflexivity.
Qed.

Lemma GetOutputsAsSourceFiles_run (t : Target) (m : Machine) :
  GetOutputsAsSourceFiles t m = (Next (output_files t), logged m [CallGetOutputs t]).
Proof.
  unfold GetOutputsAsSourceFiles, output_files, bind, emit, ret, logged.
  destruct (output_type t); reflexivity.
Qed.

Lemma wrong_arity_run (args : list Value) (m : Machine) :
  List.length args <> 1 ->
  get_target_outputs function args m =
    (Value_NONE, failed m (ArgumentCountError function)).
Proof.
  intros Hlen.
  unfold get_target_outputs, RunGetTargetOutputs, call.
  apply Nat.eqb_neq in Hlen; rewrite Hlen; reflexivity.
Qed.

(** The run up to the fetch of the collector. *)
Lemma resolved_run (arg : Value) (m : Machine) (l : Label.t) (e : Err) :
  Resolve (source_dir (scope m)) (root_path (scope m))
          (toolchain_label (scope m)) arg = (l, e) ->
  get_target_outputs function [arg] m =
    if is_null l then
      (Value_NONE,
       MkMachine (scope m) (stored e (err m)) (trace m ++ [CallResolve arg]))
    else
      match item_collector (scope m) with
      | None =>
          (Value_NONE,
           MkMachine (scope m) (Some (ContextError function))
             (trace m ++ [CallResolve arg; CallGetItemCollector]))
      | Some registry =>
          get_target_outputs function [arg] m
      end.
Proof.
  intros HR.
  destruct (is_null l) eqn:Hnull;
    [|destruct (item_collector (scope m)) eqn:Hcol; [reflexivity|]];
    unfold get_target_outputs, RunGetTargetOutputs, call;
    cbn [List.length Nat.eqb negb nth];
    unfold GetSourceDir, root_path_utf8, ToolchainLabelForScope, Label_Resolve,
      GetItemCollector, bind, read, emit, set_err, ret, return_;
    rewrite HR; destruct e; cbn [scope err trace stored]; rewrite Hnull;
    cbn [scope err trace]; rewrite <- ?app_assoc; try rewrite Hcol; reflexivity.
Qed.

(** One argument, a label that is not null and a registry: everything
    that can happen from there. *)
Lemma get_target_outputs_lookup (arg : Value) (m : Machine) (l : Label.t)
    (e : Err) (registry : ItemVector) :
  Resolve (source_dir (scope m)) (root_path (scope m))
          (toolchain_label (scope m)) arg = (l, e) ->
  is_null l = false ->
  item_collector (scope m) = Some registry ->
  get_target_outputs function [arg] m =
  match Registry_find l registry with
  | None =>
      (Value_NONE, failed (after_scan m arg e l registry) (NotFoundError function l))
  | Some item =>
      match AsTarget item with
      | None =>
          (Value_NONE,
           failed (after_scan m arg e l registry) (TypeMismatchError function l item))
      | Some t =>
          if supported (output_type t) then
            (Value_LIST function (map (to_value function) (output_files t)),
             logged (after_scan m arg e l registry) [CallGetOutputs t])
          else
            (Value_NONE,
             failed (after_scan m arg e l registry) (UnsupportedKindError arg))
      end
  end.
Proof.
  intros HR Hnull Hcol.
  unfold get_target_outputs, RunGetTargetOutputs, call.
  cbn [List.length Nat.eqb negb nth].
  unfold GetSourceDir, root_path_utf8, ToolchainLabelForScope, Label_Resolve,
    GetItemCollector.
  unfold bind at 1 2 3 4, read at 1 2 3, emit at 1.
  rewrite HR.
  assert (Hres : forall m0 : Machine,
            match e with
            | Some info => bind (set_err info) (fun _ => ret l)
            | None => ret l
            end m0 = (Next l, MkMachine (scope m0) (stored e (err m0)) (trace m0))).
  { intros [s0 e0 t0]; destruct e; reflexivity. }
  unfold bind at 1; rewrite Hres; cbn [scope err trace].
  rewrite Hnull.
  unfold bind at 1 2, emit at 1, read at 1; cbn [scope err trace].
  rewrite Hcol.
  unfold bind at 1; rewrite scan_collector_find.
  pose proof (find_none_visited l registry) as Hvis.
  destruct (Registry_find l registry) as [item|].
  - destruct (AsTarget item) as [t|].
    + rewrite supported_spec.
      destruct (supported (output_type t)).
      * unfold bind at 1; rewrite GetOutputsAsSourceFiles_run.
        unfold ret; rewrite files_to_values_map.
        unfold logged, after_scan; cbn [scope err trace].
        rewrite <- !app_assoc; reflexivity.
      * unfold bind, set_err, return_, logged, failed, after_scan;
          cbn [scope err trace]; rewrite <- !app_assoc; reflexivity.
    + unfold logged, failed, after_scan; cbn [scope err trace].
      rewrite <- !app_assoc; reflexivity.
  - unfold bind, set_err, return_, logged, failed, after_scan, NotFoundError;
      cbn [scope err trace]; rewrite (Hvis eq_refl), <- !app_assoc.
    cbn [String.append]; reflexivity.
Qed.

(** The embedded function computes [outcome]. *)
Lemma get_target_outputs_outcome (args : list Value) (m : Machine) :
  observed (get_target_outputs function args m) =
  outcome function args (scope m) (err m).
Proof.
  destruct args as [|arg [|arg' rest]].
  - rewrite wrong_arity_run by (cbn; lia); reflexivity.
  - unfold outcome.
    destruct (Resolve (source_dir (scope m)) (root_path (scope m))
                (toolchain_label (scope m)) arg) as [l e] eqn:HR.
    rewrite (resolved_run arg m l e HR).
    destruct (is_null l) eqn:Hnull; [reflexivity|].
    destruct (item_collector (scope m)) as [registry|] eqn:Hcol; [|reflexivity].
    rewrite (get_target_outputs_lookup arg m l e registry HR Hnull Hcol).
    destruct (Registry_find l registry) as [item|]; [|reflexivity].
    destruct (AsTarget item) as [t|]; [|reflexivity].
    destruct (supported (output_type t)); reflexivity.
  - rewrite wrong_arity_run by (cbn; lia); reflexivity.
Qed.

(** Feeding the error a call left behind into the same call changes
    nothing. *)
Lemma outcome_stable (args : list Value) (s : Scope) (before : Err) :
  outcome function args s (snd (outcome function args s before)) =
  outcome function args s before.
Proof.
  unfold outcome.
  destruct args as [|arg [|arg' rest]]; try reflexivity.
  destruct (Resolve _ _ _ arg) as [l e].
  destruct (is_null l); [cbn [snd]; rewrite stored_idem; reflexivity|].
  destruct (item_collector s) as [registry|]; [|reflexivity].
  destruct (Registry_find l registry) as [item|]; [|reflexivity].
  destruct (AsTarget item) as [t|]; [|reflexivity].
  destruct (supported (output_type t)); [|reflexivity].
  cbn [snd]; rewrite stored_idem; reflexivity.
Qed.

End Behaviour.

(** ** The scope is only read *)

Create HintDb frame.

Lemma ret_keeps {A} (a : A) : keeps_scope (ret a).
Proof. intros m; reflexivity. Qed.

Lemma return_keeps {A} (v : Value) : keeps_scope (@return_ A v).
Proof. intros m; reflexivity. Qed.

Lemma set_err_keeps (e : ErrInfo) : keeps_scope (set_err e).
Proof. intros m; reflexivity. Qed.

Lemma emit_keeps (ev : Event) : keeps_scope (emit ev).
Proof. intros m; reflexivity. Qed.

Lemma read_keeps {A} (f : Scope -> A) : keeps_scope (read f).
Proof. intros m; reflexivity. Qed.

Lemma bind_keeps {A B} (c : Exec A) (k : A -> Exec B) :
  keeps_scope c -> (forall a, keeps_scope (k a)) -> keeps_scope (bind c k).
Proof.
  intros Hc Hk m; unfold bind.
  specialize (Hc m).
  destruct (c m) as [[a | v] m']; cbn [snd] in *.
  - rewrite Hk; exact Hc.
  - exact Hc.
Qed.

#[export] Hint Resolve ret_keeps return_keeps set_err_keeps emit_keeps
  read_keeps bind_keeps : frame.

Section Frame.

Context {ext : Collaborators}.

Lemma Label_Resolve_keeps (d r : string) (tc : Label.t) (input : Value) :
  keeps_scope (Label_Resolve d r tc input).
Proof.
  unfold Label_Resolve.
  apply bind_keeps; [auto with frame|]; intros _.
  destruct (Resolve d r tc input) as [l [info|]]; auto with frame.
Qed.

Lemma GetItemCollector_keeps : keeps_scope GetItemCollector.
Proof. unfold GetItemCollector; auto with frame. Qed.

Lemma GetOutputsAsSourceFiles_keeps (t : Target) :
  keeps_scope (GetOutputsAsSourceFiles t).
Proof.
  unfold GetOutputsAsSourceFiles.
  apply bind_keeps; [auto with frame|]; intros _.
  destruct (output_type t); auto with frame.
Qed.

Lemma scan_collector_keeps (function : FunctionCallNode) (l : Label.t)
    (registry : ItemVector) :
  keeps_scope (scan_collector function l registry).
Proof.
  induction registry as [|item rest IH]; cbn [scan_collector].
  - auto with frame.
  - apply bind_keeps; [auto with frame|]; intros _.
    destruct (Label.neqb (label item) l); [exact IH|].
    destruct (AsTarget item); auto with frame.
Qed.

Lemma RunGetTargetOutputs_keeps (function : FunctionCallNode) (args : list Value) :
  keeps_scope (RunGetTargetOutputs function args).
Proof.
  unfold RunGetTargetOutputs, GetSourceDir, root_path_utf8, ToolchainLabelForScope.
  destruct (negb (List.length args =? 1)%nat); [auto with frame|].
  do 3 (apply bind_keeps; [auto with frame|]; intros ?).
  apply bind_keeps; [apply Label_Resolve_keeps|]; intros l.
  destruct (is_null l); [auto with frame|].
  apply bind_keeps; [apply GetItemCollector_keeps|]; intros [registry|];
    [|auto with frame].
  apply bind_keeps; [apply scan_collector_keeps|]; intros [t|];
    [|auto with frame].
  match goal with |- keeps_scope (if ?b then _ else _) => destruct b end;
    [|auto with frame].
  apply bind_keeps; [apply GetOutputsAsSourceFiles_keeps|]; auto with frame.
Qed.

Lemma get_target_outputs_scope (function : FunctionCallNode) (args : list Value)
    (m : Machine) :
  scope (snd (get_target_outputs function args m)) = scope m.
Proof.
  unfold get_target_outputs, call.
  pose proof (RunGetTargetOutputs_keeps function args m) as H.
  destruct (RunGetTargetOutputs function args m) as [[v | v] m']; exact H.
Qed.

End Frame.

(** * The claims *)

Section Claims.

Context {ext : Collaborators}.

Variable function : FunctionCallNode.

(** C1.  A call naming a target of kind Action, Copy or GeneratedFile
    that is the registry's first item under the resolved label returns
    the list of the target's explicit outputs, each as its canonical
    string, one per declared path and at the same index: nothing is
    merged or reordered, and a path declared twice is returned twice,
    as for the outputs "/out/x.txt", "/out/x.txt". *)
Theorem explicit_outputs_returned
    (arg : Value) (m : Machine) (l : Label.t) (e : Err)
    (registry : ItemVector) (item : Item) (t : Target) :
  Resolve (source_dir (scope m)) (root_path (scope m))
          (toolchain_label (scope m)) arg = (l, e) ->
  is_null l = false ->
  item_collector (scope m) = Some registry ->
  Registry_find l registry = Some item ->
  AsTarget item = Some t ->
  output_type t = ACTION \/ output_type t = COPY_FILES \/
    output_type t = GENERATED_FILE ->
  exists result : list Value,
    get_target_outputs function [arg] m =
      (Value_LIST function result,
       logged (after_scan m arg e l registry) [CallGetOutputs t]) /\
    result = map (canonical function) (outputs t) /\
    List.length result = List.length (outputs t) /\
    (forall i,
       nth_error result i = option_map (canonical function) (nth_error (outputs t) i)) /\
    (outputs t = ["/out/x.txt"; "/out/x.txt"]%string ->
     result = [canonical function "/out/x.txt"; canonical function "/out/x.txt"]).
Proof.
  intros HR Hnull Hcol Hfind Has Hkind.
  exists (map (canonical function) (outputs t)).
  split; [|split; [reflexivity|split; [apply length_map|split]]].
  - rewrite (get_target_outputs_lookup function arg m l e registry HR Hnull Hcol).
    rewrite Hfind, Has.
    assert (Hfiles : output_files t = map normalize (outputs t)).
    { unfold output_files; destruct Hkind as [-> | [-> | ->]]; reflexivity. }
    assert (Hsup : supported (output_type t) = true).
    { destruct Hkind as [-> | [-> | ->]]; reflexivity. }
    rewrite Hsup, Hfiles, map_map; reflexivity.
  - intros i; apply nth_error_map.
  - intros ->; reflexivity.
Qed.

(** C2.  A call naming a target of kind ActionForEach that is the
    registry's first item under the resolved label returns, source
    after source in declared order, what the output template expands
    to for that source, each expansion in the engine's own order;
    nothing is dropped, so equal outputs of different sources all
    appear.  With sources "a.c" and "b.c" expanding to "/out/a.o" and
    "/out/b.o" the result is exactly these two, in this order. *)
Theorem foreach_outputs_returned
    (arg : Value) (m : Machine) (l : Label.t) (e : Err)
    (registry : ItemVector) (item : Item) (t : Target) :
  Resolve (source_dir (scope m)) (root_path (scope m))
          (toolchain_label (scope m)) arg = (l, e) ->
  is_null l = false ->
  item_collector (scope m) = Some registry ->
  Registry_find l registry = Some item ->
  AsTarget item = Some t ->
  output_type t = ACTION_FOREACH ->
  exists result : list Value,
    get_target_outputs function [arg] m =
      (Value_LIST function result,
       logged (after_scan m arg e l registry) [CallGetOutputs t]) /\
    result = flat_map (expansion function t) (sources t) /\
    (forall before after,
       sources t = before ++ after ->
       result = flat_map (expansion function t) before ++
                flat_map (expansion function t) after) /\
    List.length result =
      list_sum (map (fun source => List.length (expansion function t source))
                  (sources t)) /\
    (sources t = ["a.c"; "b.c"]%string ->
     expand (output_template t) "a.c" (out_dir t) = [MkSourceFile "/out/a.o"] ->
     expand (output_template t) "b.c" (out_dir t) = [MkSourceFile "/out/b.o"] ->
     result = [Value_STRING function "/out/a.o"; Value_STRING function "/out/b.o"]).
Proof.
  intros HR Hnull Hcol Hfind Has Hkind.
  exists (flat_map (expansion function t) (sources t)).
  split; [|split; [reflexivity|split; [|split]]].
  - rewrite (get_target_outputs_lookup function arg m l e registry HR Hnull Hcol).
    rewrite Hfind, Has.
    unfold output_files; rewrite Hkind; cbn [supported].
    rewrite map_flat_map; reflexivity.
  - intros before after ->; apply flat_map_app.
  - apply length_flat_map.
  - intros Hsrc Ha Hb; rewrite Hsrc; unfold expansion; cbn [flat_map].
    rewrite Ha, Hb; reflexivity.
Qed.

(** C3.  When the registry's first item under the resolved label is a
    target of a kind other than Action, ActionForEach, Copy and
    GeneratedFile, that is a source set, a group or a binary, the call
    returns the null value, stores the unsupported-kind diagnostic built
    from the argument, and never asks for the target's outputs. *)
Theorem unsupported_kind_rejected
    (arg : Value) (m : Machine) (l : Label.t) (e : Err)
    (registry : ItemVector) (item : Item) (t : Target) :
  Resolve (source_dir (scope m)) (root_path (scope m))
          (toolchain_label (scope m)) arg = (l, e) ->
  is_null l = false ->
  item_collector (scope m) = Some registry ->
  Registry_find l registry = Some item ->
  AsTarget item = Some t ->
  output_type t <> ACTION ->
  output_type t <> ACTION_FOREACH ->
  output_type t <> COPY_FILES ->
  output_type t <> GENERATED_FILE ->
  get_target_outputs function [arg] m =
    (Value_NONE,
     failed (after_scan m arg e l registry) (UnsupportedKindError arg)) /\
  is_list (fst (get_target_outputs function [arg] m)) = false /\
  (forall t', ~ In (CallGetOutputs t') (trace m) ->
     ~ In (CallGetOutputs t') (trace (snd (get_target_outputs function [arg] m)))) /\
  In (output_type t) [SOURCE_SET; GROUP; EXECUTABLE; SHARED_LIBRARY; STATIC_LIBRARY].
Proof.
  intros HR Hnull Hcol Hfind Has H1 H2 H3 H4.
  assert (Hsup : supported (output_type t) = false).
  { destruct (output_type t); try reflexivity; congruence. }
  assert (Hrun : get_target_outputs function [arg] m =
            (Value_NONE,
             failed (after_scan m arg e l registry) (UnsupportedKindError arg))).
  { rewrite (get_target_outputs_lookup function arg m l e registry HR Hnull Hcol).
    rewrite Hfind, Has, Hsup; reflexivity. }
  rewrite Hrun; cbn [fst snd is_list].
  repeat split.
  - intros t' Hnot Hin.
    unfold failed, after_scan in Hin; cbn [trace] in Hin.
    apply in_app_or in Hin as [Hin | Hin]; [contradiction|].
    destruct Hin as [Hin | [Hin | Hin]]; try discriminate.
    apply in_map_iff in Hin as (x & Hx & _); discriminate.
  - destruct (output_type t); cbn; try congruence; auto 10.
Qed.

(** C4.  When no item of the registry carries the resolved label, the
    call returns the null value and stores the not-found diagnostic:
    its message says that the target was not found in this context and
    its help text ends with the rule that only targets previously
    defined in the current file can be queried.  This covers the empty
    registry and a label whose item is only appended afterwards.  The
    diagnostic differs from the one for a missing registry, which is
    what a scope without a registry produces for the same label. *)
Theorem absent_label_not_found
    (arg : Value) (m : Machine) (l : Label.t) (e : Err) (registry : ItemVector) :
  Resolve (source_dir (scope m)) (root_path (scope m))
          (toolchain_label (scope m)) arg = (l, e) ->
  is_null l = false ->
  item_collector (scope m) = Some registry ->
  (forall item, In item registry -> label item <> l) ->
  get_target_outputs function [arg] m =
    (Value_NONE,
     failed (after_scan m arg e l registry) (NotFoundError function l)) /\
  message (NotFoundError function l) = "Target not found in this context."%string /\
  (exists text,
     help_text (NotFoundError function l) = (text ++ visibility_rule)%string) /\
  (forall later, label later = l ->
     Registry_find l (Registry_append registry later) = Some later) /\
  NotFoundError function l <> ContextError function /\
  (forall m0,
     Resolve (source_dir (scope m0)) (root_path (scope m0))
             (toolchain_label (scope m0)) arg = (l, e) ->
     item_collector (scope m0) = None ->
     err (snd (get_target_outputs function [arg] m0)) =
       Some (ContextError function)).
Proof.
  intros HR Hnull Hcol Habsent.
  pose proof (proj2 (find_none_iff l registry) Habsent) as Hnone.
  split; [|split; [reflexivity|split; [|split; [|split]]]].
  - rewrite (get_target_outputs_lookup function arg m l e registry HR Hnull Hcol).
    rewrite Hnone; reflexivity.
  - exists (GetUserVisibleName l false ++ nl ++ "was not found. ")%string.
    unfold NotFoundError, visibility_rule; cbn [help_text].
    rewrite !append_assoc; reflexivity.
  - intros later Hl.
    unfold Registry_append.
    destruct (find_first l registry [] later Habsent Hl) as [Hf _]; exact Hf.
  - unfold NotFoundError, ContextError; intros H; discriminate H.
  - intros m0 HR0 Hcol0.
    rewrite (resolved_run function arg m0 l e HR0), Hnull, Hcol0; reflexivity.
Qed.

(** C5.  When the registry's first item under the resolved label is not
    a target, the call returns the null value and stores the
    type-mismatch diagnostic, whose help text is the label's
    user-visible name followed by the kind name the item reports. *)
Theorem non_target_rejected
    (arg : Value) (m : Machine) (l : Label.t) (e : Err)
    (registry : ItemVector) (item : Item) :
  Resolve (source_dir (scope m)) (root_path (scope m))
          (toolchain_label (scope m)) arg = (l, e) ->
  is_null l = false ->
  item_collector (scope m) = Some registry ->
  Registry_find l registry = Some item ->
  AsTarget item = None ->
  get_target_outputs function [arg] m =
    (Value_NONE,
     failed (after_scan m arg e l registry) (TypeMismatchError function l item)) /\
  help_text (TypeMismatchError function l item) =
    (GetUserVisibleName l false ++ nl ++ "refers to a " ++ GetItemTypeName item)%string /\
  message (TypeMismatchError function l item) = "Label does not refer to a target."%string.
Proof.
  intros HR Hnull Hcol Hfind Has.
  split; [|split; reflexivity].
  rewrite (get_target_outputs_lookup function arg m l e registry HR Hnull Hcol).
  rewrite Hfind, Has; reflexivity.
Qed.

(** C6.  With any number of arguments other than one the call returns
    the null value and stores the argument-count diagnostic.  The log of
    collaborator calls is left as it was: the label was not resolved,
    the registry not fetched, no item looked at.  Accordingly the
    outcome is the same whatever the resolver and whatever the scope. *)
Theorem wrong_arity_rejected_first (args : list Value) (m : Machine) :
  List.length args <> 1 ->
  get_target_outputs function args m =
    (Value_NONE,
     MkMachine (scope m) (Some (ArgumentCountError function)) (trace m)) /\
  trace (snd (get_target_outputs function args m)) = trace m /\
  (forall (other : Collaborators) (m' : Machine),
     observed (@get_target_outputs other function args m') =
     (Value_NONE, Some (ArgumentCountError function))).
Proof.
  intros Hlen.
  rewrite (wrong_arity_run function args m Hlen).
  split; [reflexivity|split; [reflexivity|]].
  intros other m'.
  rewrite (@wrong_arity_run other function args m' Hlen); reflexivity.
Qed.

(** C7.  With one argument the label is resolved first.  If the
    resolver hands back a null label, the call returns the null value
    with whatever the resolver stored as the error, and the log shows
    the resolver call only: the registry is not fetched, present or
    not.  If the label is not null and the scope has no registry, the
    call returns the null value with the missing-registry diagnostic,
    and the log shows the resolver call, then the fetch, then nothing:
    no item is looked at and no outputs are computed. *)
Theorem failures_short_circuit
    (arg : Value) (m : Machine) (l : Label.t) (e : Err) :
  Resolve (source_dir (scope m)) (root_path (scope m))
          (toolchain_label (scope m)) arg = (l, e) ->
  (is_null l = true ->
   get_target_outputs function [arg] m =
     (Value_NONE,
      MkMachine (scope m) (stored e (err m)) (trace m ++ [CallResolve arg])) /\
   (forall info, e = Some info ->
      err (snd (get_target_outputs function [arg] m)) = Some info)) /\
  (is_null l = false ->
   item_collector (scope m) = None ->
   get_target_outputs function [arg] m =
     (Value_NONE,
      MkMachine (scope m) (Some (ContextError function))
        (trace m ++ [CallResolve arg; CallGetItemCollector]))).
Proof.
  intros HR; split.
  - intros Hnull; rewrite (resolved_run function arg m l e HR), Hnull.
    split; [reflexivity|].
    intros info ->; reflexivity.
  - intros Hnull Hcol.
    rewrite (resolved_run function arg m l e HR), Hnull, Hcol; reflexivity.
Qed.

(** C8.  A call leaves the scope, and with it the registry and every
    target in it, exactly as it found them.  The value returned and the
    error left behind depend on the arguments, the scope and the
    incoming error alone, not on what was called before; and calling
    again with the same arguments, in the state the first call left,
    returns the same value and leaves the same error. *)
Theorem pure_and_repeatable (args : list Value) (m : Machine) :
  scope (snd (get_target_outputs function args m)) = scope m /\
  item_collector (scope (snd (get_target_outputs function args m))) =
    item_collector (scope m) /\
  (forall m2 : Machine,
     scope m2 = scope m -> err m2 = err m ->
     observed (get_target_outputs function args m2) =
     observed (get_target_outputs function args m)) /\
  observed (get_target_outputs function args
              (snd (get_target_outputs function args m))) =
  observed (get_target_outputs function args m).
Proof.
  pose proof (get_target_outputs_scope function args m) as Hscope.
  split; [exact Hscope|].
  split; [rewrite Hscope; reflexivity|].
  split.
  - intros m2 Hs He.
    rewrite !get_target_outputs_outcome, Hs, He; reflexivity.
  - rewrite (get_target_outputs_outcome function args (snd _)), Hscope.
    pose proof (get_target_outputs_outcome function args m) as Hout.
    unfold observed in Hout at 1.
    assert (Herr : err (snd (get_target_outputs function args m)) =
                   snd (outcome function args (scope m) (err m))).
    { rewrite <- Hout; reflexivity. }
    rewrite Herr, outcome_stable.
    symmetry; apply get_target_outputs_outcome.
Qed.

(** C9.  The scan stops at the first item carrying the resolved label.
    If that item is not a target the call fails with the type-mismatch
    diagnostic for it, whatever follows it in the registry, a target
    with the same label included; the items after it are not looked
    at. *)
Theorem first_match_decides
    (arg : Value) (m : Machine) (l : Label.t) (e : Err)
    (pre post : ItemVector) (item : Item) :
  Resolve (source_dir (scope m)) (root_path (scope m))
          (toolchain_label (scope m)) arg = (l, e) ->
  is_null l = false ->
  item_collector (scope m) = Some (pre ++ item :: post) ->
  (forall it, In it pre -> label it <> l) ->
  label item = l ->
  AsTarget item = None ->
  get_target_outputs function [arg] m =
    (Value_NONE,
     MkMachine (scope m) (Some (TypeMismatchError function l item))
       (trace m ++ CallResolve arg :: CallGetItemCollector ::
          map VisitItem (pre ++ [item]))).
Proof.
  intros HR Hnull Hcol Hpre Hl Has.
  rewrite (get_target_outputs_lookup function arg m l e _ HR Hnull Hcol).
  destruct (find_first l pre post item Hpre Hl) as [Hfind Hvis].
  rewrite Hfind, Has.
  unfold failed, after_scan; cbn [scope err trace].
  rewrite Hvis; reflexivity.
Qed.

(** C10.  Entered with no error pending, and with a resolver that
    stores an error exactly when it hands back a null label, a call
    ends in one of two ways: it returns a list and the error is still
    unset, or it returns the null value and an error is set. *)
Theorem list_or_error (args : list Value) (m : Machine) :
  err m = None ->
  (forall l e,
     Resolve (source_dir (scope m)) (root_path (scope m))
             (toolchain_label (scope m)) (nth 0 args Value_NONE) = (l, e) ->
     is_null l = has_error e) ->
  (is_list (fst (get_target_outputs function args m)) = true /\
   err (snd (get_target_outputs function args m)) = None) \/
  (fst (get_target_outputs function args m) = Value_NONE /\
   has_error (err (snd (get_target_outputs function args m))) = true).
Proof.
  intros Hclean Hcontract.
  pose proof (get_target_outputs_outcome function args m) as Hout.
  unfold observed in Hout.
  assert (Hv : fst (get_target_outputs function args m) =
               fst (outcome function args (scope m) (err m)))
    by (rewrite <- Hout; reflexivity).
  assert (He : err (snd (get_target_outputs function args m)) =
               snd (outcome function args (scope m) (err m)))
    by (rewrite <- Hout; reflexivity).
  rewrite Hv, He; clear Hout Hv He.
  unfold outcome.
  destruct args as [|arg [|arg' rest]];
    [right; split; reflexivity| |right; split; reflexivity].
  cbn [nth] in Hcontract.
  destruct (Resolve _ _ _ arg) as [l e].
  specialize (Hcontract l e eq_refl).
  rewrite Hclean.
  destruct (is_null l).
  - right; destruct e; [split; reflexivity | discriminate].
  - destruct e; [discriminate|].
    destruct (item_collector (scope m)) as [registry|]; [|right; split; reflexivity].
    destruct (Registry_find l registry) as [item|]; [|right; split; reflexivity].
    destruct (AsTarget item) as [t|]; [|right; split; reflexivity].
    destruct (supported (output_type t)); [left | right]; split; reflexivity.
Qed.

End Claims.

(** * The claims on a concrete file *)

(** The action's two equal outputs come back as two equal strings. *)
Lemma explicit_outputs_returned_witness :
  fst (Demo.run [Demo.arg ":gen"] Demo.at_file) =
  Value_LIST Demo.call_site
    [Value_STRING Demo.call_site "/out/x.txt";
     Value_STRING Demo.call_site "/out/x.txt"].
Proof.
  destruct (explicit_outputs_returned (ext := Demo.collaborators) Demo.call_site
              (Demo.arg ":gen") Demo.at_file (Demo.here "gen") None
              Demo.registry Demo.gen_item Demo.gen
              eq_refl eq_refl eq_refl eq_refl eq_refl (or_introl eq_refl))
    as (result & Hrun & _ & _ & _ & Hdup).
  unfold Demo.run; rewrite Hrun, (Hdup eq_refl); reflexivity.
Defined.

(** "{out_dir}/{stem}.o" over "a.c" and "b.c". *)
Lemma foreach_outputs_returned_witness :
  fst (Demo.run [Demo.arg ":objs"] Demo.at_file) =
  Value_LIST Demo.call_site
    [Value_STRING Demo.call_site "/out/a.o"; Value_STRING Demo.call_site "/out/b.o"].
Proof.
  destruct (foreach_outputs_returned (ext := Demo.collaborators) Demo.call_site
              (Demo.arg ":objs") Demo.at_file (Demo.here "objs") None
              Demo.registry Demo.objs_item Demo.objs
              eq_refl eq_refl eq_refl eq_refl eq_refl eq_refl)
    as (result & Hrun & _ & _ & _ & Hex).
  unfold Demo.run; rewrite Hrun, (Hex eq_refl eq_refl eq_refl); reflexivity.
Defined.

(** A source set is refused. *)
Lemma unsupported_kind_rejected_witness :
  fst (Demo.run [Demo.arg ":lib"] Demo.at_file) = Value_NONE /\
  err (snd (Demo.run [Demo.arg ":lib"] Demo.at_file)) =
    Some (UnsupportedKindError (Demo.arg ":lib")).
Proof.
  destruct (unsupported_kind_rejected (ext := Demo.collaborators) Demo.call_site
              (Demo.arg ":lib") Demo.at_file (Demo.here "lib") None
              Demo.registry Demo.lib_item Demo.lib
              eq_refl eq_refl eq_refl eq_refl eq_refl
              ltac:(discriminate) ltac:(discriminate)
              ltac:(discriminate) ltac:(discriminate))
    as (Hrun & _).
  unfold Demo.run; rewrite Hrun; split; reflexivity.
Defined.

Lemma nope_absent (item : Item) :
  In item Demo.registry -> label item <> Demo.here "nope".
Proof.
  cbn; intros H.
  repeat (destruct H as [<- | H]; [discriminate|]).
  contradiction.
Qed.

(** A label nothing in the file declares. *)
Lemma absent_label_not_found_witness :
  fst (Demo.run [Demo.arg ":nope"] Demo.at_file) = Value_NONE /\
  err (snd (Demo.run [Demo.arg ":nope"] Demo.at_file)) =
    Some (NotFoundError (ext := Demo.collaborators) Demo.call_site (Demo.here "nope")).
Proof.
  destruct (absent_label_not_found (ext := Demo.collaborators) Demo.call_site
              (Demo.arg ":nope") Demo.at_file (Demo.here "nope") None Demo.registry
              eq_refl eq_refl eq_refl nope_absent)
    as (Hrun & _).
  unfold Demo.run; rewrite Hrun; split; reflexivity.
Defined.

(** A registry that exists but is empty, and the same query once the
    target has been declared. *)
Example empty_registry_run :
  Demo.run [Demo.arg ":gen"] (Demo.start (Some [])) =
  (Value_NONE,
   MkMachine (Demo.file_scope (Some []))
     (Some (NotFoundError (ext := Demo.collaborators) Demo.call_site (Demo.here "gen")))
     [CallResolve (Demo.arg ":gen"); CallGetItemCollector]).
Proof. reflexivity. Qed.

Example declared_then_queried :
  fst (Demo.run [Demo.arg ":gen"]
         (Demo.start (Some (Registry_append [] Demo.gen_item)))) =
  Value_LIST Demo.call_site
    [Value_STRING Demo.call_site "/out/x.txt";
     Value_STRING Demo.call_site "/out/x.txt"].
Proof. reflexivity. Qed.

(** A config is not a target. *)
Lemma non_target_rejected_witness :
  fst (Demo.run [Demo.arg ":cfg"] Demo.at_file) = Value_NONE /\
  option_map help_text (err (snd (Demo.run [Demo.arg ":cfg"] Demo.at_file))) =
    Some ("//app:cfg" ++ nl ++ "refers to a config")%string.
Proof.
  destruct (non_target_rejected (ext := Demo.collaborators) Demo.call_site
              (Demo.arg ":cfg") Demo.at_file (Demo.here "cfg") None
              Demo.registry Demo.cfg_item
              eq_refl eq_refl eq_refl eq_refl eq_refl)
    as (Hrun & _).
  unfold Demo.run; rewrite Hrun; split; reflexivity.
Defined.

(** Two arguments, each a fine label. *)
Lemma wrong_arity_rejected_first_witness :
  Demo.run [Demo.arg ":gen"; Demo.arg ":objs"] Demo.at_file =
  (Value_NONE,
   MkMachine (Demo.file_scope (Some Demo.registry))
     (Some (ArgumentCountError Demo.call_site)) []).
Proof.
  exact (proj1 (wrong_arity_rejected_first (ext := Demo.collaborators)
                  Demo.call_site [Demo.arg ":gen"; Demo.arg ":objs"] Demo.at_file
                  ltac:(discriminate))).
Defined.

(** Outside any file: a malformed label is reported as such, a
    well-formed one meets the missing registry. *)
Lemma failures_short_circuit_witness :
  trace (snd (Demo.run [Demo.arg "nope"] (Demo.start None))) =
    [CallResolve (Demo.arg "nope")] /\
  option_map message (err (snd (Demo.run [Demo.arg "nope"] (Demo.start None)))) =
    Some "Invalid label."%string /\
  Demo.run [Demo.arg ":gen"] (Demo.start None) =
    (Value_NONE,
     MkMachine (Demo.file_scope None) (Some (ContextError Demo.call_site))
       [CallResolve (Demo.arg ":gen"); CallGetItemCollector]).
Proof.
  pose proof (proj1 (failures_short_circuit (ext := Demo.collaborators)
                       Demo.call_site (Demo.arg "nope") (Demo.start None)
                       Demo.null_label
                       (Some (MkErr (AtValue (Demo.arg "nope")) "Invalid label." "nope"))
                       eq_refl) eq_refl) as [Hnull _].
  pose proof (proj2 (failures_short_circuit (ext := Demo.collaborators)
                       Demo.call_site (Demo.arg ":gen") (Demo.start None)
                       (Demo.here "gen") None eq_refl)
                eq_refl eq_refl) as Habsent.
  unfold Demo.run; rewrite Hnull; repeat split; exact Habsent.
Defined.

(** The file's scope after a query is the file's scope, and asking
    twice gives the same answer. *)
Lemma pure_and_repeatable_witness :
  scope (snd (Demo.run [Demo.arg ":objs"] Demo.at_file)) =
    Demo.file_scope (Some Demo.registry) /\
  observed (Demo.run [Demo.arg ":objs"]
              (snd (Demo.run [Demo.arg ":objs"] Demo.at_file))) =
  observed (Demo.run [Demo.arg ":objs"] Demo.at_file).
Proof.
  destruct (pure_and_repeatable (ext := Demo.collaborators) Demo.call_site
              [Demo.arg ":objs"] Demo.at_file) as (Hscope & _ & _ & Hagain).
  split; [exact Hscope | exact Hagain].
Defined.

(** The config declared before the second "cfg" hides it. *)
Lemma first_match_decides_witness :
  Demo.run [Demo.arg ":cfg"] Demo.at_file =
  (Value_NONE,
   MkMachine (Demo.file_scope (Some Demo.registry))
     (Some (TypeMismatchError (ext := Demo.collaborators) Demo.call_site
              (Demo.here "cfg") Demo.cfg_item))
     [CallResolve (Demo.arg ":cfg"); CallGetItemCollector;
      VisitItem Demo.gen_item; VisitItem Demo.cfg_item]).
Proof.
  assert (Hpre : forall it, In it [Demo.gen_item] -> label it <> Demo.here "cfg").
  { intros it [<- | []]; discriminate. }
  exact (first_match_decides (ext := Demo.collaborators) Demo.call_site
           (Demo.arg ":cfg") Demo.at_file (Demo.here "cfg") None [Demo.gen_item]
           [Demo.objs_item; Demo.lib_item; Demo.late_item] Demo.cfg_item
           eq_refl eq_refl eq_refl Hpre eq_refl eq_refl).
Defined.

(** A successful query returns a list and no error. *)
Lemma list_or_error_witness :
  (is_list (fst (Demo.run [Demo.arg ":gen"] Demo.at_file)) = true /\
   err (snd (Demo.run [Demo.arg ":gen"] Demo.at_file)) = None) \/
  (fst (Demo.run [Demo.arg ":gen"] Demo.at_file) = Value_NONE /\
   has_error (err (snd (Demo.run [Demo.arg ":gen"] Demo.at_file))) = true).
Proof.
  apply (list_or_error (ext := Demo.collaborators) Demo.call_site
           [Demo.arg ":gen"] Demo.at_file eq_refl).
  intros l e H; injection H as <- <-; reflexivity.
Defined.

(** * Further properties of the function *)

Lemma find_app_some (l : Label.t) (registry more : ItemVector) (item : Item) :
  Registry_find l registry = Some item ->
  Registry_find l (registry ++ more) = Some item.
Proof.
  unfold Registry_find.
  induction registry as [|x rest IH]; cbn; [discriminate|].
  destruct (Label.eqb (label x) l); [exact (fun H => H) | exact IH].
Qed.

Lemma find_filter (l : Label.t) (registry : ItemVector) :
  Registry_find l (filter (carries l) registry) = Registry_find l registry.
Proof.
  unfold Registry_find, carries.
  induction registry as [|x rest IH]; cbn; [reflexivity|].
  destruct (Label.eqb (label x) l) eqn:E; cbn; [rewrite E; reflexivity | exact IH].
Qed.

Lemma find_some_split (l : Label.t) (registry : ItemVector) (item : Item) :
  Registry_find l registry = Some item ->
  exists pre post,
    registry = pre ++ item :: post /\
    (forall it, In it pre -> label it <> l) /\
    label item = l.
Proof.
  unfold Registry_find.
  induction registry as [|x rest IH]; cbn; [discriminate|].
  destruct (Label.eqb (label x) l) eqn:E.
  - intros [= ->]; exists [], rest; cbn.
    apply Label_eqb_eq in E; intuition.
  - intros H; destruct (IH H) as (pre & post & -> & Hpre & Hl).
    exists (x :: pre), post; cbn; repeat split; auto.
    intros it [<- | Hin]; [|auto].
    intros Eq; rewrite Eq, Label_eqb_refl in E; discriminate.
Qed.

Section Further.

Context {ext : Collaborators}.

Variable function : FunctionCallNode.

Lemma value_outcome (args : list Value) (m : Machine) :
  fst (get_target_outputs function args m) =
  fst (outcome function args (scope m) (err m)).
Proof. rewrite <- get_target_outputs_outcome; reflexivity. Qed.

Lemma error_outcome (args : list Value) (m : Machine) :
  err (snd (get_target_outputs function args m)) =
  snd (outcome function args (scope m) (err m)).
Proof. rewrite <- get_target_outputs_outcome; reflexivity. Qed.

(** X1.  A list is returned only on the one path that computes outputs:
    there was exactly one argument, its label is not null, the scope has
    a registry, the first item under the label is a target of a
    supported kind; the list is then that target's files, one string
    each, attributed to the call, and the function has stored no error
    of its own. *)
Theorem list_only_from_supported_target
    (args : list Value) (m : Machine) (origin : ParseNode) (xs : list Value) :
  fst (get_target_outputs function args m) = Value_LIST origin xs ->
  exists arg l e registry item t,
    args = [arg] /\
    Resolve (source_dir (scope m)) (root_path (scope m))
            (toolchain_label (scope m)) arg = (l, e) /\
    is_null l = false /\
    item_collector (scope m) = Some registry /\
    Registry_find l registry = Some item /\
    AsTarget item = Some t /\
    supported (output_type t) = true /\
    origin = function /\
    xs = map (to_value function) (output_files t) /\
    err (snd (get_target_outputs function args m)) = stored e (err m).
Proof.
  rewrite value_outcome, error_outcome.
  unfold outcome.
  destruct args as [|arg [|arg' rest]]; try discriminate.
  destruct (Resolve _ _ _ arg) as [l e] eqn:HR.
  destruct (is_null l) eqn:Hnull; [discriminate|].
  destruct (item_collector (scope m)) as [registry|] eqn:Hcol; [|discriminate].
  destruct (Registry_find l registry) as [item|] eqn:Hfind; [|discriminate].
  destruct (AsTarget item) as [t|] eqn:Has; [|discriminate].
  destruct (supported (output_type t)) eqn:Hsup; [|discriminate].
  cbn [fst snd]; intros [= <- <-].
  exists arg, l, e, registry, item, t; repeat split; assumption.
Qed.

(** X2.  Once the registry holds an item under the queried label,
    appending further items, whatever their labels and variants, changes
    neither the value returned nor the error left: only a query that did
    not find its label can come out differently later in the file. *)
Theorem found_label_stable_under_append
    (arg : Value) (m : Machine) (l : Label.t) (e : Err)
    (registry more : ItemVector) (item : Item) :
  Resolve (source_dir (scope m)) (root_path (scope m))
          (toolchain_label (scope m)) arg = (l, e) ->
  Registry_find l registry = Some item ->
  observed (get_target_outputs function [arg] (in_registry m (registry ++ more))) =
  observed (get_target_outputs function [arg] (in_registry m registry)).
Proof.
  intros HR Hfind.
  rewrite !get_target_outputs_outcome.
  unfold outcome, in_registry, with_registry;
    cbn [scope err source_dir root_path toolchain_label item_collector].
  rewrite HR, (find_app_some l registry more item Hfind), Hfind; reflexivity.
Qed.

(** X3.  Items under other labels do not take part: the value returned
    and the error left are those of the registry with every such item
    removed.  In particular a config or a pool under another label never
    causes a type mismatch. *)
Theorem other_labels_irrelevant
    (arg : Value) (m : Machine) (l : Label.t) (e : Err) (registry : ItemVector) :
  Resolve (source_dir (scope m)) (root_path (scope m))
          (toolchain_label (scope m)) arg = (l, e) ->
  observed (get_target_outputs function [arg] (in_registry m registry)) =
  observed (get_target_outputs function [arg]
              (in_registry m (filter (carries l) registry))).
Proof.
  intros HR.
  rewrite !get_target_outputs_outcome.
  unfold outcome, in_registry, with_registry;
    cbn [scope err source_dir root_path toolchain_label item_collector].
  rewrite HR, find_filter; reflexivity.
Qed.

(** X4.  The error pending on entry is neither looked at nor cleared:
    the value returned is the same whatever [*err] holds on entry, and
    an error set on entry is still set on return. *)
Theorem pending_error_not_read_not_cleared
    (args : list Value) (m : Machine) (pending : Err) :
  fst (get_target_outputs function args (entered_with m pending)) =
    fst (get_target_outputs function args m) /\
  (has_error (err m) = true ->
   has_error (err (snd (get_target_outputs function args m))) = true).
Proof.
  rewrite !value_outcome, error_outcome.
  unfold outcome, entered_with; cbn [scope err].
  destruct args as [|arg [|arg' rest]]; try (split; reflexivity).
  destruct (Resolve _ _ _ arg) as [l e].
  assert (Hstored : has_error (err m) = true -> has_error (stored e (err m)) = true).
  { destruct e; [reflexivity | exact (fun H => H)]. }
  destruct (is_null l); [split; [reflexivity | exact Hstored]|].
  destruct (item_collector (scope m)) as [registry|]; [|split; reflexivity].
  destruct (Registry_find l registry) as [item|]; [|split; reflexivity].
  destruct (AsTarget item) as [t|]; [|split; reflexivity].
  destruct (supported (output_type t)); split; try reflexivity; exact Hstored.
Qed.

(** X5.  The lookup is one pass over the registry in declaration order.
    Either no item carries the label and every item is looked at once,
    in order, or the items looked at are those up to and including the
    first one carrying the label, in order, and none after it.
    [GetOutputsAsSourceFiles] is called at most once, after the pass,
    and only for that first item when it is a target of a supported
    kind. *)
Theorem lookup_is_one_ordered_pass
    (arg : Value) (m : Machine) (l : Label.t) (e : Err) (registry : ItemVector) :
  Resolve (source_dir (scope m)) (root_path (scope m))
          (toolchain_label (scope m)) arg = (l, e) ->
  is_null l = false ->
  item_collector (scope m) = Some registry ->
  (forall it, In it registry -> label it <> l) /\
  trace (snd (get_target_outputs function [arg] m)) =
    trace m ++ CallResolve arg :: CallGetItemCollector :: map VisitItem registry
  \/
  exists pre item post tail,
    registry = pre ++ item :: post /\
    (forall it, In it pre -> label it <> l) /\
    label item = l /\
    trace (snd (get_target_outputs function [arg] m)) =
      trace m ++ CallResolve arg :: CallGetItemCollector ::
        map VisitItem (pre ++ [item]) ++ tail /\
    (tail = [] \/
     exists t, AsTarget item = Some t /\ supported (output_type t) = true /\
               tail = [CallGetOutputs t]).
Proof.
  intros HR Hnull Hcol.
  rewrite (get_target_outputs_lookup function arg m l e registry HR Hnull Hcol).
  destruct (Registry_find l registry) as [item|] eqn:Hfind.
  - destruct (find_some_split l registry item Hfind) as (pre & post & Hreg & Hpre & Hl).
    destruct (find_first l pre post item Hpre Hl) as [_ Hvis].
    rewrite <- Hreg in Hvis.
    right; exists pre, item, post.
    destruct (AsTarget item) as [t|] eqn:Has;
      [destruct (supported (output_type t)) eqn:Hsup|].
    + exists [CallGetOutputs t]; repeat split; auto.
      * unfold logged, after_scan; cbn [snd trace].
        rewrite Hvis, <- app_assoc; reflexivity.
      * right; exists t; auto.
    + exists []; repeat split; auto.
      unfold failed, after_scan; cbn [snd trace].
      rewrite Hvis, app_nil_r; reflexivity.
    + exists []; repeat split; auto.
      unfold failed, after_scan; cbn [snd trace].
      rewrite Hvis, app_nil_r; reflexivity.
  - left; split; [apply find_none_iff; exact Hfind|].
    unfold failed, after_scan; cbn [snd trace].
    rewrite (find_none_visited l registry Hfind); reflexivity.
Qed.

End Further.

Section Shape.

Context {ext : Collaborators}.

Variable function : FunctionCallNode.

(** X6.  Whatever the arguments, the scope, the collaborators and the
    error pending on entry, the value returned is either the null value
    or a list attributed to the call whose elements are all strings
    attributed to the call. *)
Theorem returns_null_or_string_list (args : list Value) (m : Machine) :
  fst (get_target_outputs function args m) = Value_NONE \/
  exists xs,
    fst (get_target_outputs function args m) = Value_LIST function xs /\
    Forall (fun v => exists s, v = Value_STRING function s) xs.
Proof.
  rewrite value_outcome.
  unfold outcome.
  destruct args as [|arg [|arg' rest]]; try (left; reflexivity).
  destruct (Resolve _ _ _ arg) as [l e].
  destruct (is_null l); [left; reflexivity|].
  destruct (item_collector (scope m)) as [registry|]; [|left; reflexivity].
  destruct (Registry_find l registry) as [item|]; [|left; reflexivity].
  destruct (AsTarget item) as [t|]; [|left; reflexivity].
  destruct (supported (output_type t)); [|left; reflexivity].
  right; eexists; split; [reflexivity|].
  apply Forall_forall; intros v Hin.
  apply in_map_iff in Hin as (file & <- & _).
  exists (value file); reflexivity.
Qed.

(** X7.  The function returns the null value with no error set in one
    situation only: no error was pending, there was exactly one
    argument, and the resolver handed back a null label without storing
    an error.  Every other return of the null value has an error set. *)
Theorem null_without_error_only_from_resolver (args : list Value) (m : Machine) :
  fst (get_target_outputs function args m) = Value_NONE ->
  has_error (err (snd (get_target_outputs function args m))) = false ->
  exists arg l,
    args = [arg] /\
    Resolve (source_dir (scope m)) (root_path (scope m))
            (toolchain_label (scope m)) arg = (l, None) /\
    is_null l = true /\
    err m = None.
Proof.
  rewrite value_outcome, error_outcome.
  unfold outcome.
  destruct args as [|arg [|arg' rest]]; try (cbn [snd has_error]; discriminate).
  destruct (Resolve _ _ _ arg) as [l e] eqn:HR.
  destruct (is_null l) eqn:Hnull.
  - cbn [fst snd]; intros _ Herr.
    destruct e as [info|]; [discriminate|].
    cbn [stored] in Herr.
    destruct (err m); [discriminate|].
    exists arg, l; repeat split; assumption.
  - destruct (item_collector (scope m)) as [registry|];
      [|cbn [snd has_error]; discriminate].
    destruct (Registry_find l registry) as [item|];
      [|cbn [snd has_error]; discriminate].
    destruct (AsTarget item) as [t|]; [|cbn [snd has_error]; discriminate].
    destruct (supported (output_type t)); cbn [fst snd has_error]; discriminate.
Qed.

End Shape.

(** * The further properties on a concrete file *)

(** The list returned for ":gen" comes from a target of a supported
    kind. *)
Lemma list_only_from_supported_target_witness :
  exists t,
    supported (output_type t) = true /\
    [Value_STRING Demo.call_site "/out/x.txt";
     Value_STRING Demo.call_site "/out/x.txt"] =
      map (to_value Demo.call_site) (output_files (ext := Demo.collaborators) t).
Proof.
  destruct (list_only_from_supported_target (ext := Demo.collaborators)
              Demo.call_site [Demo.arg ":gen"] Demo.at_file Demo.call_site
              [Value_STRING Demo.call_site "/out/x.txt";
               Value_STRING Demo.call_site "/out/x.txt"]
              eq_refl)
    as (arg & l & e & registry & item & t & _ & _ & _ & _ & _ & _ & Hsup & _ & Hxs & _).
  exists t; split; assumption.
Defined.

(** ":cfg" stays a type mismatch after more items are declared, a target
    under the same label among them. *)
Lemma found_label_stable_under_append_witness :
  observed (Demo.run [Demo.arg ":cfg"]
              (in_registry Demo.at_file
                 ([Demo.gen_item; Demo.cfg_item] ++
                  [Demo.objs_item; Demo.lib_item; Demo.late_item]))) =
  observed (Demo.run [Demo.arg ":cfg"]
              (in_registry Demo.at_file [Demo.gen_item; Demo.cfg_item])).
Proof.
  exact (found_label_stable_under_append (ext := Demo.collaborators) Demo.call_site
           (Demo.arg ":cfg") Demo.at_file (Demo.here "cfg") None
           [Demo.gen_item; Demo.cfg_item]
           [Demo.objs_item; Demo.lib_item; Demo.late_item] Demo.cfg_item
           eq_refl eq_refl).
Defined.

(** The query for ":objs" sees the file as if only "objs" were
    declared. *)
Lemma other_labels_irrelevant_witness :
  observed (Demo.run [Demo.arg ":objs"] (in_registry Demo.at_file Demo.registry)) =
  observed (Demo.run [Demo.arg ":objs"] (in_registry Demo.at_file [Demo.objs_item])).
Proof.
  exact (other_labels_irrelevant (ext := Demo.collaborators) Demo.call_site
           (Demo.arg ":objs") Demo.at_file (Demo.here "objs") None Demo.registry
           eq_refl).
Defined.

(** A successful query entered with an error pending returns its list
    and leaves an error set. *)
Lemma pending_error_not_read_not_cleared_witness :
  fst (Demo.run [Demo.arg ":gen"]
         (entered_with Demo.at_file (Some (ContextError Demo.call_site)))) =
    fst (Demo.run [Demo.arg ":gen"] Demo.at_file) /\
  has_error
    (err (snd (Demo.run [Demo.arg ":gen"]
                 (entered_with Demo.at_file (Some (ContextError Demo.call_site)))))) =
    true.
Proof.
  split.
  - exact (proj1 (pending_error_not_read_not_cleared (ext := Demo.collaborators)
                    Demo.call_site [Demo.arg ":gen"] Demo.at_file
                    (Some (ContextError Demo.call_site)))).
  - exact (proj2 (pending_error_not_read_not_cleared (ext := Demo.collaborators)
                    Demo.call_site [Demo.arg ":gen"]
                    (entered_with Demo.at_file (Some (ContextError Demo.call_site)))
                    None) eq_refl).
Defined.

(** The query for ":cfg" in the five-item file: what the pass looks
    at. *)
Lemma lookup_is_one_ordered_pass_witness :
  (forall it, In it Demo.registry -> label it <> Demo.here "cfg") /\
  trace (snd (Demo.run [Demo.arg ":cfg"] Demo.at_file)) =
    trace Demo.at_file ++ CallResolve (Demo.arg ":cfg") :: CallGetItemCollector ::
      map VisitItem Demo.registry
  \/
  exists pre item post tail,
    Demo.registry = pre ++ item :: post /\
    (forall it, In it pre -> label it <> Demo.here "cfg") /\
    label item = Demo.here "cfg" /\
    trace (snd (Demo.run [Demo.arg ":cfg"] Demo.at_file)) =
      trace Demo.at_file ++ CallResolve (Demo.arg ":cfg") :: CallGetItemCollector ::
        map VisitItem (pre ++ [item]) ++ tail /\
    (tail = [] \/
     exists t, AsTarget item = Some t /\ supported (output_type t) = true /\
               tail = [CallGetOutputs t]).
Proof.
  exact (lookup_is_one_ordered_pass (ext := Demo.collaborators) Demo.call_site
           (Demo.arg ":cfg") Demo.at_file (Demo.here "cfg") None Demo.registry
           eq_refl eq_refl eq_refl).
Defined.

(** In a scope whose directory is empty the sample resolver hands back
    a label with an empty directory, which is null, and stores nothing:
    the call then returns the null value and no error. *)
Lemma null_without_error_only_from_resolver_witness :
  exists arg l,
    [Demo.arg ":gen"] = [arg] /\
    Demo.resolve "" "/repo" Demo.default_toolchain arg = (l, None) /\
    Label.dir l = ""%string.
Proof.
  destruct (null_without_error_only_from_resolver (ext := Demo.collaborators)
              Demo.call_site [Demo.arg ":gen"]
              (MkMachine (MkScope "" "/repo" Demo.default_toolchain (Some Demo.registry))
                 None [])
              eq_refl eq_refl)
    as (arg & l & Hargs & HR & Hnull & _).
  exists arg, l; repeat split; [exact Hargs | exact HR |].
  apply String.eqb_eq; exact Hnull.
Defined.

(** C10, as worded for every input, fails on two runs.  Entered with an
    error pending, the query for ":gen" returns its list and the error
    is still set.  In a scope whose directory is empty the sample
    resolver hands back a null label and stores nothing, and the return
    after the null test stores nothing either: the null value comes back
    with no error. *)
Lemma list_or_error_counterexample :
  ~ ((is_list (fst (Demo.run [Demo.arg ":gen"]
                      (entered_with Demo.at_file
                         (Some (ContextError Demo.call_site))))) = true /\
      err (snd (Demo.run [Demo.arg ":gen"]
                  (entered_with Demo.at_file
                     (Some (ContextError Demo.call_site))))) = None) \/
     (fst (Demo.run [Demo.arg ":gen"]
             (entered_with Demo.at_file
                (Some (ContextError Demo.call_site)))) = Value_NONE /\
      has_error
        (err (snd (Demo.run [Demo.arg ":gen"]
                     (entered_with Demo.at_file
                        (Some (ContextError Demo.call_site)))))) = true)) /\
  ~ ((is_list (fst (Demo.run [Demo.arg ":gen"]
                      (MkMachine
                         (MkScope "" "/repo" Demo.default_toolchain (Some Demo.registry))
                         None []))) = true /\
      err (snd (Demo.run [Demo.arg ":gen"]
                  (MkMachine
                     (MkScope "" "/repo" Demo.default_toolchain (Some Demo.registry))
                     None []))) = None) \/
     (fst (Demo.run [Demo.arg ":gen"]
             (MkMachine
                (MkScope "" "/repo" Demo.default_toolchain (Some Demo.registry))
                None [])) = Value_NONE /\
      has_error
        (err (snd (Demo.run [Demo.arg ":gen"]
                     (MkMachine
                        (MkScope "" "/repo" Demo.default_toolchain (Some Demo.registry))
                        None [])))) = true)).
Proof.
  split; intros [[H1 H2] | [H1 H2]]; vm_compute in H1, H2; discriminate.
Qed.
